(** * Tic Tac Toe: the game logic of [src/tic_tac_toe_frontend/src/App.js]

    A shallow embedding of the winner detection ([calculateWinner]), of the
    state kept by the [App] component ([squares], [xIsNext]), of the values
    derived from it at every render ([winner], [line], [isDraw], [status])
    and of its two event handlers ([handleSquareClick], [resetGame]),
    followed by the properties of the game they implement. *)

From stdpp Require Import gmap list strings.

Local Open Scope Z_scope.

(** ** JavaScript values and arrays, as far as the game uses them *)

(** The two strings the game stores in a square. *)
Inductive mark : Set := X | O.

(** What reading a square can yield: [undefined] (nothing stored there),
    [null] (an empty square) or one of the strings ['X'] and ['O']. *)
Inductive value : Set :=
  | Undefined
  | Null
  | Str (m : mark).

#[global] Instance mark_eq_dec : EqDecision mark.
Proof. solve_decision. Defined.

#[global] Instance value_eq_dec : EqDecision value.
Proof. solve_decision. Defined.

(** JavaScript truthiness: [undefined] and [null] are falsy, the non-empty
    strings ['X'] and ['O'] are truthy. *)
Definition truthy (v : value) : bool :=
  match v with
  | Str _ => true
  | Undefined | Null => false
  end.

(** [v === w] on these values. *)
Definition strict_eq (v w : value) : bool := bool_decide (v = w).

Module Js.

(** An array object.  [elems] are the slots [0 .. length-1]; [None] is a
    hole (a slot that was never written).  [props] are the properties under
    integer keys that are not array indices (negative ones, and those from
    [2^32 - 1] on): writing to such a key neither touches a slot nor
    changes [length]. *)
Record array : Type := Array {
  elems : list (option value);
  props : gmap Z value
}.

(** The keys that address a slot: [0 <= i < 2^32 - 1]. *)
Definition is_index (i : Z) : bool := bool_decide (0 <= i < 4294967295).

(** [a[i]]: a hole, a slot past the end and an absent property all read
    as [undefined]. *)
Definition get (a : array) (i : Z) : value :=
  if is_index i then
    match elems a !! Z.to_nat i with
    | Some (Some v) => v
    | Some None | None => Undefined
    end
  else default Undefined (props a !! i).

(** [a[i] = v]: inside the array the slot is overwritten; past its end the
    array grows to length [i + 1], the slots in between being holes; a key
    that is not an index becomes a property. *)
Definition set (a : array) (i : Z) (v : value) : array :=
  if is_index i then
    if bool_decide (Z.to_nat i < length (elems a))%nat then
      Array (<[Z.to_nat i := Some v]> (elems a)) (props a)
    else
      Array (elems a
               ++ replicate (Z.to_nat i - length (elems a)) None
               ++ [Some v])
            (props a)
  else Array (elems a) (<[i := v]> (props a)).

(** [a.slice()]: a copy of the slots, holes included; properties that are
    not slots are not copied. *)
Definition slice (a : array) : array := Array (elems a) ∅.

(** [Array(n).fill(v)]. *)
Definition fill (n : nat) (v : value) : array := Array (replicate n (Some v)) ∅.

(** [a.every(p)]: the callback is not called on holes. *)
Definition every (p : value → bool) (a : array) : bool :=
  forallb (λ s, match s with Some v => p v | None => true end) (elems a).

End Js.

(** ** Winner detection *)

(** [const LINES]: three rows, three columns, two diagonals. *)
Definition LINES : list (Z * Z * Z) :=
  [ (0, 1, 2); (3, 4, 5); (6, 7, 8);
    (0, 3, 6); (1, 4, 7); (2, 5, 8);
    (0, 4, 8); (2, 4, 6) ].

(** The object [calculateWinner] returns. *)
Record outcome : Set := Outcome {
  winner : value;
  line : list Z
}.

(** The test of the loop body:
    [squares[a] && squares[a] === squares[b] && squares[a] === squares[c]]. *)
Definition three_in_line (squares : Js.array) (a b c : Z) : bool :=
  truthy (Js.get squares a)
  && strict_eq (Js.get squares a) (Js.get squares b)
  && strict_eq (Js.get squares a) (Js.get squares c).

(** The [for (const [a, b, c] of ...)] loop of [calculateWinner], over the
    lines that are still to be visited. *)
Fixpoint calculateWinner_from (lines : list (Z * Z * Z)) (squares : Js.array)
  : outcome :=
  match lines with
  | [] => Outcome Null []
  | (a, b, c) :: rest =>
      if three_in_line squares a b c
      then Outcome (Js.get squares a) [a; b; c]
      else calculateWinner_from rest squares
  end.

Definition calculateWinner (squares : Js.array) : outcome :=
  calculateWinner_from LINES squares.

(** ** The component state, the derived values and the handlers *)

(** The two [useState] cells of [App]. *)
Record state : Type := State {
  squares : Js.array;
  xIsNext : bool
}.

(** [useState(Array(9).fill(null))], [useState(true)]. *)
Definition initial : state := State (Js.fill 9 Null) true.

(** [!winner && squares.every((s) => s !== null)], where [winner] comes from
    [calculateWinner(squares)]: the [useMemo] around that call is keyed on
    [squares], and every update installs a fresh array, so the memoised value
    is always the one computed from the current [squares]. *)
Definition isDraw (sq : Js.array) : bool :=
  negb (truthy (winner (calculateWinner sq)))
  && Js.every (λ s, negb (strict_eq s Null)) sq.

Definition mark_string (m : mark) : string :=
  match m with X => "X" | O => "O" end.

(** The [status] text.  The [winner] branch is only taken for a truthy
    winner, which is one of the two marks. *)
Definition status (st : state) : string :=
  match winner (calculateWinner (squares st)) with
  | Str m => "Winner: " +:+ mark_string m
  | Undefined | Null =>
      if isDraw (squares st) then "Draw"
      else "Next: " +:+ (if xIsNext st then "X" else "O")
  end.

(** [handleSquareClick(i)]: the early [return] leaves both state cells as
    they are; otherwise [setSquares(next)] and [setXIsNext(!xIsNext)]. *)
Definition handleSquareClick (i : Z) (st : state) : state :=
  if truthy (Js.get (squares st) i)
     || truthy (winner (calculateWinner (squares st)))
  then st
  else
    let next := Js.slice (squares st) in
    let next := Js.set next i (Str (if xIsNext st then X else O)) in
    State next (negb (xIsNext st)).

(** [resetGame()]. *)
Definition resetGame (st : state) : state := State (Js.fill 9 Null) true.

(** ** The verdict of a board

    The component keeps no verdict: it recomputes [winner], [line] and
    [isDraw] from [squares] at every render and branches on them in this
    order (in [status] and in the class of the status element). *)
Inductive verdict : Set :=
  | Ongoing
  | Win (m : mark) (l : list Z)
  | Draw.

Definition evaluate (sq : Js.array) : verdict :=
  match winner (calculateWinner sq) with
  | Str m => Win m (line (calculateWinner sq))
  | Undefined | Null => if isDraw sq then Draw else Ongoing
  end.

(** ** Boards and what the properties speak about *)

(** A slot holding an empty square or a mark. *)
Definition is_cell (s : option value) : bool :=
  match s with
  | Some Null | Some (Str _) => true
  | Some Undefined | None => false
  end.

(** A board: exactly nine slots, each an empty square or a mark. *)
Definition is_board (sq : Js.array) : bool :=
  bool_decide (length (Js.elems sq) = 9%nat) && forallb is_cell (Js.elems sq).

Definition in_range (i : Z) : Prop := 0 <= i <= 8.

(** The three squares of a line all hold the mark [m]. *)
Definition line_marked (sq : Js.array) (l : Z * Z * Z) (m : mark) : Prop :=
  let '(a, b, c) := l in
  Js.get sq a = Str m ∧ Js.get sq b = Str m ∧ Js.get sq c = Str m.

Definition triple_list (l : Z * Z * Z) : list Z :=
  let '(a, b, c) := l in [a; b; c].

(** The mark the next accepted click places. *)
Definition turn (st : state) : mark := if xIsNext st then X else O.

(** How many squares hold [m]. *)
Definition count_mark (m : mark) (sq : Js.array) : nat :=
  length (filter (λ s, s = Some (Str m)) (Js.elems sq)).

(** What one slot contributes to the count of [m]. *)
Definition holds (m : mark) (s : option value) : nat :=
  if decide (s = Some (Str m)) then 1%nat else 0%nat.

(** What is true of every state the game reaches: the squares form a board,
    and X has placed as many marks as O when X is to move, one more when O
    is to move. *)
Definition balanced (st : state) : Prop :=
  is_board (squares st) = true ∧
  Z.of_nat (count_mark X (squares st)) - Z.of_nat (count_mark O (squares st))
  = if xIsNext st then 0 else 1.

(** The states the game can be in when the squares are clicked (indices
    0 to 8) and the reset button is pressed. *)
Inductive reachable : state → Prop :=
  | reachable_initial : reachable initial
  | reachable_click i st :
      in_range i → reachable st → reachable (handleSquareClick i st)
  | reachable_reset st : reachable st → reachable (resetGame st).

(** A played sequence of clicks. *)
Definition play (clicks : list Z) (st : state) : state :=
  foldl (λ s i, handleSquareClick i s) st clicks.

(** The board with the given nine (or however many) squares. *)
Definition board_of (l : list value) : Js.array := Js.Array (Some <$> l) ∅.

(** ** Events *)

(** What the user can do: click a square (the handler receives an index)
    or press the reset button. *)
Inductive event : Set :=
  | Click (i : Z)
  | Reset.

Definition handle (e : event) (st : state) : state :=
  match e with
  | Click i => handleSquareClick i st
  | Reset => resetGame st
  end.

(** The events handled one after the other. *)
Definition run (events : list event) (st : state) : state :=
  foldl (λ s e, handle e s) st events.

Definition other (m : mark) : mark :=
  match m with X => O | O => X end.

(** ** What is rendered *)

(** The [button] a [Square] renders: its class, its [aria-label], the value
    it shows, and the index its [onClick] hands to [onSquareClick]. *)
Record button : Set := Button {
  className : string;
  ariaLabel : string;
  children : value;
  onClick : Z
}.

(** [Square({ value, onClick, highlight })]. *)
Definition Square (value : value) (onClick : Z) (highlight : bool) : button :=
  Button ("ttt-square " +:+ (if highlight then "highlight" else ""))
         ("Square " +:+ match value with
                        | Str m => mark_string m
                        | Undefined | Null => "empty"
                        end)
         value
         onClick.

(** [renderSquare(i)] in [Board]; [winningLine?.includes(i)] is a plain
    [includes], since [App] always passes the array [line]. *)
Definition renderSquare (squares : Js.array) (winningLine : list Z) (i : Z)
  : button :=
  Square (Js.get squares i) i (bool_decide (i ∈ winningLine)).

(** [Board({ squares, onSquareClick, winningLine })]: three rows of three
    grid cells, each with its key [idx = row * 3 + col] and its square. *)
Definition Board (squares : Js.array) (winningLine : list Z)
  : list (list (Z * button)) :=
  (λ row, (λ col, let idx := row * 3 + col in
                  (idx, renderSquare squares winningLine idx)) <$> [0; 1; 2])
    <$> [0; 1; 2].

(** The squares [App] renders, in document order:
    [<Board squares={squares} onSquareClick={handleSquareClick}
    winningLine={line} />]. *)
Definition rendered_squares (st : state) : list button :=
  snd <$> concat (Board (squares st) (line (calculateWinner (squares st)))).

(** The class of the status element:
    [`status ${winner ? 'status-win' : isDraw ? 'status-draw' : ''}`]. *)
Definition statusClass (st : state) : string :=
  "status " +:+
  (if truthy (winner (calculateWinner (squares st))) then "status-win"
   else if isDraw (squares st) then "status-draw"
   else "").

(** A rendered square carries the highlight class. *)
Definition highlighted (b : button) : bool :=
  bool_decide (className b = "ttt-square highlight").

(** The states the rendered application can be brought to: by a click on
    one of the squares it renders, or by the reset button. *)
Inductive ui_reachable : state → Prop :=
  | ui_initial : ui_reachable initial
  | ui_click b st :
      b ∈ rendered_squares st → ui_reachable st →
      ui_reachable (handleSquareClick (onClick b) st)
  | ui_reset st : ui_reachable st → ui_reachable (resetGame st).

(** Every marked line carries the mark of the player who is not to
    move. *)
Definition loser_to_move (st : state) : Prop :=
  ∀ l m, l ∈ LINES → line_marked (squares st) l m → m = other (turn st).

(** ** Counting the moves *)

#[global] Instance array_eq_dec : EqDecision Js.array.
Proof. solve_decision. Defined.

#[global] Instance state_eq_dec : EqDecision state.
Proof. solve_decision. Defined.

(** How many clicks of a sequence changed the state. *)
Fixpoint accepted_clicks (clicks : list Z) (st : state) : nat :=
  match clicks with
  | [] => 0%nat
  | i :: rest =>
      ((if decide (handleSquareClick i st = st) then 0 else 1)
       + accepted_clicks rest (handleSquareClick i st))%nat
  end.

(** How many squares hold a mark. *)
Definition marks (st : state) : nat :=
  (count_mark X (squares st) + count_mark O (squares st))%nat.

(** The fixed enumeration order of the eight lines as the specification
    writes it out: the three rows, the three columns, the two diagonals. *)
Definition enumeration_order : list (Z * Z * Z) :=
  [ (0, 1, 2); (3, 4, 5); (6, 7, 8);
    (0, 3, 6); (1, 4, 7); (2, 5, 8);
    (0, 4, 8); (2, 4, 6) ].

(** The empty board with the three squares of [l] marked [m]. *)
Definition only_line (l : Z * Z * Z) (m : mark) : Js.array :=
  let '(a, b, c) := l in
  Js.set (Js.set (Js.set (Js.fill 9 Null) a (Str m)) b (Str m)) c (Str m).

(** * Properties *)

(** ** Reading and writing arrays *)

Section js_array.
Implicit Types (a : Js.array) (i j : Z) (v : value).

Lemma get_slice a j : Js.is_index j = true → Js.get (Js.slice a) j = Js.get a j.
Proof. intros Hj. unfold Js.get. by rewrite Hj. Qed.

Lemma length_set_outside a i v :
  Js.is_index i = true → (length (Js.elems a) ≤ Z.to_nat i)%nat →
  length (Js.elems (Js.set a i v)) = S (Z.to_nat i).
Proof.
  intros Hi Hge. unfold Js.set. rewrite Hi.
  rewrite bool_decide_eq_false_2 by lia. simpl.
  rewrite !length_app, length_replicate. simpl. lia.
Qed.

(** Reading back the key that was written. *)
Lemma get_set_eq a i v : Js.get (Js.set a i v) i = v.
Proof.
  unfold Js.get, Js.set. destruct (Js.is_index i) eqn:Hi; simpl.
  - case_bool_decide as Hlt; simpl.
    + by rewrite list_lookup_insert_eq.
    + rewrite lookup_app_r by lia.
      rewrite lookup_app_r by (rewrite length_replicate; lia).
      rewrite length_replicate.
      by replace (Z.to_nat i - length (Js.elems a)
                  - (Z.to_nat i - length (Js.elems a)))%nat with 0%nat by lia.
  - by rewrite lookup_insert_eq.
Qed.

(** Every other key reads as before. *)
Lemma get_set_ne a i j v : i ≠ j → Js.get (Js.set a i v) j = Js.get a j.
Proof.
  intros Hne. unfold Js.get, Js.set.
  destruct (Js.is_index i) eqn:Hi, (Js.is_index j) eqn:Hj; simpl; try done.
  - assert (Z.to_nat i ≠ Z.to_nat j) as Hn.
    { unfold Js.is_index in Hi, Hj.
      apply bool_decide_eq_true in Hi, Hj. lia. }
    case_bool_decide as Hlt; simpl.
    + by rewrite list_lookup_insert_ne.
    + destruct (decide (Z.to_nat j < length (Js.elems a))%nat) as [Hj1|Hj1].
      { by rewrite lookup_app_l. }
      rewrite (lookup_ge_None_2 (Js.elems a)) by lia.
      rewrite lookup_app_r by lia.
      destruct (decide (Z.to_nat j < Z.to_nat i)%nat) as [Hj2|Hj2].
      * rewrite lookup_app_l by (rewrite length_replicate; lia).
        rewrite lookup_replicate_2 by lia. done.
      * rewrite lookup_ge_None_2; [done|].
        rewrite length_app, length_replicate. simpl. lia.
  - by case_bool_decide.
  - by rewrite lookup_insert_ne.
Qed.

End js_array.

(** ** Winner detection *)

Section winner.
Implicit Types (sq : Js.array) (l : Z * Z * Z) (m : mark).

(** The loop test holds exactly when the three squares carry one mark. *)
Lemma three_in_line_marked sq a b c :
  three_in_line sq a b c = true ↔ ∃ m, line_marked sq (a, b, c) m.
Proof.
  unfold three_in_line, line_marked, strict_eq. split.
  - intros H. apply andb_prop in H as [H Hc]. apply andb_prop in H as [Ha Hb].
    apply bool_decide_eq_true_1 in Hb. apply bool_decide_eq_true_1 in Hc.
    destruct (Js.get sq a) as [| |m] eqn:Ea; try discriminate.
    exists m. by rewrite <- Hb, <- Hc.
  - intros (m & -> & -> & ->). simpl.
    by rewrite bool_decide_eq_true_2.
Qed.

Lemma three_in_line_unmarked sq a b c :
  three_in_line sq a b c = false ↔ ∀ m, ¬ line_marked sq (a, b, c) m.
Proof.
  rewrite <- not_true_iff_false, three_in_line_marked. split.
  - intros H m Hm. apply H. by exists m.
  - intros H [m Hm]. by apply (H m).
Qed.

(** Without a marked line the loop runs to its end. *)
Lemma calculateWinner_from_none lines sq :
  (∀ l m, l ∈ lines → ¬ line_marked sq l m) →
  calculateWinner_from lines sq = Outcome Null [].
Proof.
  induction lines as [|[[a b] c] rest IH]; intros Hno; simpl; [done|].
  rewrite (proj2 (three_in_line_unmarked sq a b c)).
  - apply IH. intros l m Hl. apply Hno. by right.
  - intros m. apply Hno. by left.
Qed.

(** With a marked line at position [k], the loop returns at the first
    marked line, which is at some position [k' <= k]. *)
Lemma calculateWinner_from_first lines sq k l m :
  lines !! k = Some l → line_marked sq l m →
  ∃ k' l' m',
    (k' ≤ k)%nat ∧ lines !! k' = Some l' ∧ line_marked sq l' m' ∧
    (∀ j l0 m0, (j < k')%nat → lines !! j = Some l0 → ¬ line_marked sq l0 m0) ∧
    calculateWinner_from lines sq = Outcome (Str m') (triple_list l').
Proof.
  revert k. induction lines as [|[[a b] c] rest IH]; intros k Hk Hm; [done|].
  simpl. destruct (three_in_line sq a b c) eqn:Ht.
  - apply three_in_line_marked in Ht as [m' Hm'].
    exists 0%nat, (a, b, c), m'. split_and!; [lia|done|done| |].
    + intros j ? ? ?. lia.
    + destruct Hm' as [-> _]. done.
  - destruct k as [|k]; simpl in Hk.
    { injection Hk as <-.
      by destruct (proj1 (three_in_line_unmarked sq a b c) Ht m). }
    destruct (IH k Hk Hm) as (k' & l' & m' & Hle & Hl' & Hm' & Hfirst & Hres).
    exists (S k'), l', m'. split_and!; [lia|done|done| |done].
    intros [|j] l0 m0 Hj Hl0; simpl in Hl0.
    + injection Hl0 as <-. by apply (proj1 (three_in_line_unmarked sq a b c)).
    + apply (Hfirst j); [lia|done].
Qed.

End winner.

(** ** Boards *)

Section boards.
Implicit Types (sq : Js.array) (i : Z) (m : mark).

Lemma in_range_is_index i : in_range i → Js.is_index i = true.
Proof. intros [??]. apply bool_decide_eq_true_2. lia. Qed.

Lemma is_board_length sq : is_board sq = true → length (Js.elems sq) = 9%nat.
Proof.
  intros H. apply andb_prop in H as [H _]. by apply bool_decide_eq_true_1 in H.
Qed.

Lemma is_board_cells sq : is_board sq = true → Forall (λ s, is_cell s = true) (Js.elems sq).
Proof.
  intros H. apply andb_prop in H as [_ H].
  apply Forall_forall. intros s Hs.
  apply (proj1 (forallb_forall _ _) H). by apply list_elem_of_In.
Qed.

(** On a board, each of the squares 0 to 8 is a slot that holds [null] or
    a mark, and that is what reading it yields. *)
Lemma board_get sq i :
  is_board sq = true → in_range i →
  Js.elems sq !! Z.to_nat i = Some (Some (Js.get sq i)) ∧
  (Js.get sq i = Null ∨ ∃ m, Js.get sq i = Str m).
Proof.
  intros Hb Hi. unfold Js.get. rewrite (in_range_is_index i Hi).
  destruct (lookup_lt_is_Some_2 (Js.elems sq) (Z.to_nat i)) as [s Hs].
  { rewrite (is_board_length sq Hb). destruct Hi. lia. }
  rewrite Hs.
  pose proof (proj1 (Forall_lookup _ _) (is_board_cells sq Hb) _ _ Hs) as Hc.
  destruct s as [[| |m]|]; try discriminate; eauto.
Qed.

(** The [every] test of [isDraw] on a board: no square 0 to 8 is [null]. *)
Lemma board_every_full sq :
  is_board sq = true →
  Js.every (λ s, negb (strict_eq s Null)) sq = true ↔
  ∀ i, in_range i → Js.get sq i ≠ Null.
Proof.
  intros Hb. unfold Js.every. rewrite forallb_forall. split.
  - intros H i Hi. destruct (board_get sq i Hb Hi) as [Hs _].
    apply list_elem_of_lookup_2, list_elem_of_In, H in Hs.
    unfold strict_eq in Hs. apply negb_true_iff, bool_decide_eq_false_1 in Hs.
    done.
  - intros H s Hs. apply list_elem_of_In, list_elem_of_lookup in Hs as [n Hn].
    pose proof (lookup_lt_Some _ _ _ Hn) as Hlt.
    rewrite (is_board_length sq Hb) in Hlt.
    assert (in_range (Z.of_nat n)) as Hr by (unfold in_range; lia).
    destruct (board_get sq _ Hb Hr) as [Hg _].
    rewrite Nat2Z.id, Hn in Hg. injection Hg as ->.
    unfold strict_eq. apply negb_true_iff, bool_decide_eq_false_2.
    by apply H.
Qed.

(** Placing a mark on a board at one of its squares gives a board. *)
Lemma is_board_set sq i m :
  is_board sq = true → in_range i →
  is_board (Js.set (Js.slice sq) i (Str m)) = true.
Proof.
  intros Hb Hi. pose proof (is_board_length sq Hb) as Hlen.
  unfold Js.set. rewrite (in_range_is_index i Hi). simpl.
  rewrite bool_decide_eq_true_2 by (rewrite Hlen; destruct Hi; lia).
  unfold is_board. simpl. apply andb_true_intro. split.
  - apply bool_decide_eq_true_2. by rewrite length_insert.
  - apply forallb_forall. intros s Hs.
    apply list_elem_of_In, list_elem_of_lookup in Hs as [n Hn].
    destruct (decide (n = Z.to_nat i)) as [->|Hne].
    + rewrite list_lookup_insert_eq in Hn by (rewrite Hlen; destruct Hi; lia).
      by injection Hn as <-.
    + rewrite list_lookup_insert_ne in Hn by done.
      apply (proj1 (Forall_lookup _ _) (is_board_cells sq Hb) _ _ Hn).
Qed.

End boards.

(** ** The verdict *)

Section verdicts.
Implicit Types (sq : Js.array) (m : mark).

(** The loop only ever returns [null] or a mark as the winner. *)
Lemma calculateWinner_from_winner lines sq :
  winner (calculateWinner_from lines sq) = Null ∨
  ∃ m, winner (calculateWinner_from lines sq) = Str m.
Proof.
  induction lines as [|[[a b] c] rest IH]; simpl; [by left|].
  destruct (three_in_line sq a b c) eqn:Ht; [|done].
  apply three_in_line_marked in Ht as (m & -> & _). right. by exists m.
Qed.

Lemma evaluate_no_winner sq :
  winner (calculateWinner sq) = Null →
  evaluate sq = if Js.every (λ s, negb (strict_eq s Null)) sq then Draw else Ongoing.
Proof. intros H. unfold evaluate, isDraw. by rewrite H. Qed.

(** The verdict is a win exactly when [winner] is truthy. *)
Lemma truthy_winner_evaluate sq :
  truthy (winner (calculateWinner sq)) = true ↔ ∃ m l, evaluate sq = Win m l.
Proof.
  unfold evaluate, isDraw, calculateWinner.
  destruct (calculateWinner_from_winner LINES sq) as [->|[m ->]]; simpl.
  - split; [done|]. intros (m & l & H).
    by destruct (Js.every _ sq).
  - split; [eauto|done].
Qed.

Lemma no_line_no_winner sq :
  (∀ l m, l ∈ LINES → ¬ line_marked sq l m) →
  calculateWinner sq = Outcome Null [].
Proof. apply calculateWinner_from_none. Qed.

End verdicts.

(** The table the code scans is the enumeration of the specification, line
    by line and in the same order. *)
Lemma LINES_enumeration_order : LINES = enumeration_order.
Proof. reflexivity. Qed.

(** C1.  The lines are taken in the fixed order (0,1,2), (3,4,5), (6,7,8),
    (0,3,6), (1,4,7), (2,5,8), (0,4,8), (2,4,6).  When the three squares of
    some line of this enumeration (the [k]-th) carry one mark,
    [calculateWinner] returns a winner and a line, and the verdict is a win
    with them: they are the mark and the indices of the first line of the
    enumeration whose three squares carry one mark, a line at a position
    [k' <= k]; when no line before the [k]-th is marked, they are the given
    mark and the given line.  This holds for every array, so for every
    board of nine squares. *)
Theorem calculateWinner_first_marked_line
    (sq : Js.array) (k : nat) (l : Z * Z * Z) (m : mark) :
  enumeration_order !! k = Some l →
  line_marked sq l m →
  ∃ k' l' m',
    (k' ≤ k)%nat ∧ enumeration_order !! k' = Some l' ∧ line_marked sq l' m' ∧
    (∀ j l0 m0, (j < k')%nat → enumeration_order !! j = Some l0 →
                ¬ line_marked sq l0 m0) ∧
    calculateWinner sq = Outcome (Str m') (triple_list l') ∧
    evaluate sq = Win m' (triple_list l') ∧
    ((∀ j l0 m0, (j < k)%nat → enumeration_order !! j = Some l0 →
                 ¬ line_marked sq l0 m0) →
     l' = l ∧ m' = m).
Proof.
  rewrite <- LINES_enumeration_order. intros Hk Hm.
  destruct (calculateWinner_from_first LINES sq k l m Hk Hm)
    as (k' & l' & m' & Hle & Hl' & Hm' & Hfirst & Hres).
  exists k', l', m'. split_and!; try done.
  - unfold evaluate, calculateWinner. by rewrite Hres.
  - intros Hnone.
    destruct (decide (k' = k)) as [->|Hne].
    + rewrite Hk in Hl'. injection Hl' as <-. split; [done|].
      destruct l as [[a b] c]. destruct Hm as [Ha _], Hm' as [Ha' _].
      congruence.
    + destruct (Hnone k' l' m'); [lia|done|done].
Qed.

(** The last column and the second diagonal are both marked (they share
    square 2): the column, sixth of the enumeration, is returned although
    the property is asked of the diagonal, the eighth. *)
Lemma calculateWinner_first_marked_line_witness :
  let sq := board_of [Null; Null; Str X; Null; Str X; Str X; Str X; Null; Str X] in
  enumeration_order !! 7%nat = Some (2, 4, 6) ∧
  line_marked sq (2, 4, 6) X ∧
  ∃ k' l' m',
    (k' ≤ 7)%nat ∧ enumeration_order !! k' = Some l' ∧ line_marked sq l' m' ∧
    (∀ j l0 m0, (j < k')%nat → enumeration_order !! j = Some l0 →
                ¬ line_marked sq l0 m0) ∧
    calculateWinner sq = Outcome (Str m') (triple_list l') ∧
    evaluate sq = Win m' (triple_list l') ∧
    ((∀ j l0 m0, (j < 7)%nat → enumeration_order !! j = Some l0 →
                 ¬ line_marked sq l0 m0) →
     l' = (2, 4, 6) ∧ m' = X).
Proof.
  intros sq. split; [reflexivity|]. split; [by vm_compute|].
  apply (calculateWinner_first_marked_line sq 7 (2, 4, 6) X);
    [reflexivity | by vm_compute].
Defined.

(** Each of the eight lines of the enumeration, marked alone on the empty
    board, is found, for either mark; and with the last column and the
    second diagonal marked together the column comes first. *)
Example calculateWinner_each_line :
  (λ l, calculateWinner (only_line l X)) <$> enumeration_order
  = [ Outcome (Str X) [0; 1; 2]; Outcome (Str X) [3; 4; 5];
      Outcome (Str X) [6; 7; 8]; Outcome (Str X) [0; 3; 6];
      Outcome (Str X) [1; 4; 7]; Outcome (Str X) [2; 5; 8];
      Outcome (Str X) [0; 4; 8]; Outcome (Str X) [2; 4; 6] ] ∧
  (λ l, evaluate (only_line l O)) <$> enumeration_order
  = [ Win O [0; 1; 2]; Win O [3; 4; 5]; Win O [6; 7; 8]; Win O [0; 3; 6];
      Win O [1; 4; 7]; Win O [2; 5; 8]; Win O [0; 4; 8]; Win O [2; 4; 6] ] ∧
  calculateWinner
    (board_of [Null; Null; Str X; Null; Str X; Str X; Str X; Null; Str X])
  = Outcome (Str X) [2; 5; 8].
Proof. by vm_compute. Qed.

(** C5.  A board whose nine squares are all marked and none of whose lines
    carries one mark is a draw. *)
Theorem evaluate_full_board_draw (sq : Js.array) :
  is_board sq = true →
  (∀ i, in_range i → Js.get sq i ≠ Null) →
  (∀ l m, l ∈ LINES → ¬ line_marked sq l m) →
  evaluate sq = Draw ∧ isDraw sq = true.
Proof.
  intros Hb Hfull Hno.
  pose proof (no_line_no_winner sq Hno) as Hw.
  pose proof (proj2 (board_every_full sq Hb) Hfull) as He.
  unfold evaluate, isDraw. rewrite Hw. simpl. by rewrite He.
Qed.

Lemma evaluate_full_board_draw_witness :
  let sq := board_of [Str X; Str O; Str X; Str O; Str O; Str X; Str X; Str X; Str O] in
  is_board sq = true ∧
  (∀ i, in_range i → Js.get sq i ≠ Null) ∧
  (∀ l m, l ∈ LINES → ¬ line_marked sq l m) ∧
  evaluate sq = Draw ∧ isDraw sq = true.
Proof.
  intros sq.
  assert (is_board sq = true) as Hb by reflexivity.
  assert (∀ i, in_range i → Js.get sq i ≠ Null) as Hfull.
  { intros i [??].
    assert (i = 0 ∨ i = 1 ∨ i = 2 ∨ i = 3 ∨ i = 4 ∨ i = 5 ∨ i = 6 ∨ i = 7 ∨ i = 8)
      as Hi by lia.
    repeat (destruct Hi as [->|Hi]; [by vm_compute|]). subst i. by vm_compute. }
  assert (∀ l m, l ∈ LINES → ¬ line_marked sq l m) as Hno.
  { intros l m Hl. unfold LINES in Hl.
    repeat (apply elem_of_cons in Hl as [->|Hl];
            [destruct m; vm_compute; intros (?&?&?); discriminate|]).
    by apply elem_of_nil in Hl. }
  do 3 (split; [done|]). apply (evaluate_full_board_draw sq Hb Hfull Hno).
Defined.

(** C6.  A board none of whose lines carries one mark and with at least one
    empty square is ongoing: there is no winner and [isDraw] is false. *)
Theorem evaluate_open_board_ongoing (sq : Js.array) :
  is_board sq = true →
  (∀ l m, l ∈ LINES → ¬ line_marked sq l m) →
  (∃ i, in_range i ∧ Js.get sq i = Null) →
  evaluate sq = Ongoing ∧ winner (calculateWinner sq) = Null ∧ isDraw sq = false.
Proof.
  intros Hb Hno (i & Hi & Hnull).
  pose proof (no_line_no_winner sq Hno) as Hw.
  assert (Js.every (λ s, negb (strict_eq s Null)) sq = false) as He.
  { apply not_true_iff_false. intros He.
    by apply (proj1 (board_every_full sq Hb) He i Hi). }
  unfold evaluate, isDraw. rewrite Hw. simpl. by rewrite He.
Qed.

Lemma evaluate_open_board_ongoing_witness :
  let sq := board_of [Str X; Str O; Str X; Null; Str O; Null; Null; Null; Null] in
  is_board sq = true ∧
  (∀ l m, l ∈ LINES → ¬ line_marked sq l m) ∧
  (∃ i, in_range i ∧ Js.get sq i = Null) ∧
  evaluate sq = Ongoing ∧ winner (calculateWinner sq) = Null ∧ isDraw sq = false.
Proof.
  intros sq.
  assert (is_board sq = true) as Hb by reflexivity.
  assert (∀ l m, l ∈ LINES → ¬ line_marked sq l m) as Hno.
  { intros l m Hl. unfold LINES in Hl.
    repeat (apply elem_of_cons in Hl as [->|Hl];
            [destruct m; vm_compute; intros (?&?&?); discriminate|]).
    by apply elem_of_nil in Hl. }
  assert (∃ i, in_range i ∧ Js.get sq i = Null) as Hex.
  { exists 3. split; [unfold in_range; lia | reflexivity]. }
  do 3 (split; [done|]). apply (evaluate_open_board_ongoing sq Hb Hno Hex).
Defined.

(** ** The click handler *)

Section handlers.
Implicit Types (st : state) (i j : Z) (m : mark).

(** The early [return]. *)
Lemma handleSquareClick_ignored i st :
  truthy (Js.get (squares st) i) = true ∨
  truthy (winner (calculateWinner (squares st))) = true →
  handleSquareClick i st = st.
Proof.
  intros H. unfold handleSquareClick.
  by rewrite (proj2 (orb_true_iff _ _) H).
Qed.

(** The two state updates. *)
Lemma handleSquareClick_accepted i st :
  truthy (Js.get (squares st) i) = false →
  truthy (winner (calculateWinner (squares st))) = false →
  handleSquareClick i st =
    State (Js.set (Js.slice (squares st)) i (Str (turn st))) (negb (xIsNext st)).
Proof. intros H1 H2. unfold handleSquareClick. by rewrite H1, H2. Qed.

Lemma ongoing_no_winner st :
  evaluate (squares st) = Ongoing →
  truthy (winner (calculateWinner (squares st))) = false.
Proof.
  intros He. apply not_true_iff_false. intros Ht.
  apply truthy_winner_evaluate in Ht as (m & l & Hw). congruence.
Qed.

(** A move the game accepts: the square is empty and the game ongoing. *)
Lemma handleSquareClick_move i st :
  Js.get (squares st) i = Null → evaluate (squares st) = Ongoing →
  handleSquareClick i st =
    State (Js.set (Js.slice (squares st)) i (Str (turn st))) (negb (xIsNext st)).
Proof.
  intros Hn He. apply handleSquareClick_accepted.
  - by rewrite Hn.
  - by apply ongoing_no_winner.
Qed.

(** Once the game is won or drawn, no click on a square is accepted. *)
Lemma handleSquareClick_finished i st :
  is_board (squares st) = true → evaluate (squares st) ≠ Ongoing →
  in_range i → handleSquareClick i st = st.
Proof.
  intros Hb He Hi. apply handleSquareClick_ignored.
  destruct (calculateWinner_from_winner LINES (squares st)) as [Hw|[m Hw]];
    fold (calculateWinner (squares st)) in Hw.
  - left. rewrite (evaluate_no_winner _ Hw) in He.
    destruct (Js.every _ (squares st)) eqn:Hev; [|done].
    pose proof (proj1 (board_every_full _ Hb) Hev i Hi) as Hfull.
    destruct (board_get _ i Hb Hi) as [_ [Hn|[m ->]]]; done.
  - right. by rewrite Hw.
Qed.

End handlers.

(** ** Counting marks *)

Section counting.
Implicit Types (l : list (option value)) (s : option value) (m : mark).

Lemma count_filter_cons m s l :
  length (filter (λ s, s = Some (Str m)) (s :: l)) =
  (holds m s + length (filter (λ s, s = Some (Str m)) l))%nat.
Proof.
  unfold holds. rewrite filter_cons. by destruct (decide (s = Some (Str m))).
Qed.

(** Overwriting one slot changes the count by what the slot held and what
    it holds now. *)
Lemma count_filter_insert m l n s s' :
  l !! n = Some s →
  (length (filter (λ s, s = Some (Str m)) (<[n := s']> l)) + holds m s =
   length (filter (λ s, s = Some (Str m)) l) + holds m s')%nat.
Proof.
  intros Hn. pose proof (lookup_lt_Some _ _ _ Hn) as Hlt.
  rewrite insert_take_drop by done.
  rewrite <- (take_drop_middle l n s Hn) at 3.
  rewrite !filter_app, !length_app, !count_filter_cons. lia.
Qed.

End counting.

Lemma balanced_initial : balanced initial.
Proof. split; reflexivity. Qed.

Lemma balanced_click i st :
  in_range i → balanced st → balanced (handleSquareClick i st).
Proof.
  intros Hi [Hb Hc].
  destruct (truthy (Js.get (squares st) i)) eqn:Hg.
  { rewrite handleSquareClick_ignored by auto. by split. }
  destruct (truthy (winner (calculateWinner (squares st)))) eqn:Hw.
  { rewrite handleSquareClick_ignored by auto. by split. }
  rewrite handleSquareClick_accepted by done.
  split; simpl; [by apply is_board_set|].
  destruct (board_get _ i Hb Hi) as [Hs [Hn|[m Hm]]]; [|by rewrite Hm in Hg].
  rewrite Hn in Hs.
  pose proof (is_board_length _ Hb) as Hlen.
  unfold count_mark, Js.set. rewrite (in_range_is_index i Hi). simpl.
  rewrite bool_decide_eq_true_2 by (rewrite Hlen; destruct Hi; lia). simpl.
  pose proof (count_filter_insert X _ _ _ (Some (Str (turn st))) Hs) as HX.
  pose proof (count_filter_insert O _ _ _ (Some (Str (turn st))) Hs) as HO.
  unfold count_mark in Hc. unfold turn in *.
  destruct (xIsNext st); simpl in *; unfold holds in *; simpl in *; lia.
Qed.

Lemma reachable_balanced st : reachable st → balanced st.
Proof.
  induction 1 as [|i st Hi _ IH|st _ _].
  - apply balanced_initial.
  - by apply balanced_click.
  - apply balanced_initial.
Qed.

(** ** The game *)

(** C2, as the handler is written.  A move the game accepts (a square 0 to
    8 that is empty, in an ongoing game) always hands the turn to the other
    mark, whatever the verdict of the board it produces. *)
Theorem accepted_move_flips_turn (st : state) (i : Z) :
  in_range i →
  Js.get (squares st) i = Null →
  evaluate (squares st) = Ongoing →
  xIsNext (handleSquareClick i st) = negb (xIsNext st) ∧
  turn (handleSquareClick i st) ≠ turn st.
Proof.
  intros _ Hn He. rewrite handleSquareClick_move by done.
  unfold turn. simpl. by destruct (xIsNext st).
Qed.

Lemma accepted_move_flips_turn_witness :
  let st := handleSquareClick 4 (handleSquareClick 0 initial) in
  in_range 8 ∧
  Js.get (squares st) 8 = Null ∧
  evaluate (squares st) = Ongoing ∧
  xIsNext (handleSquareClick 8 st) = negb (xIsNext st) ∧
  turn (handleSquareClick 8 st) ≠ turn st.
Proof.
  intros st.
  split; [unfold in_range; lia|]. split; [reflexivity|]. split; [reflexivity|].
  apply (accepted_move_flips_turn st 8);
    [unfold in_range; lia | reflexivity | reflexivity].
Defined.

(** C2 as stated fails: after X at 0, O at 4, X at 1, O at 3, the move of X
    at 2 is accepted and wins on the line 0, 1, 2, and the turn has passed
    to O all the same. *)
Lemma win_move_flips_turn_counterexample :
  let st := play [0; 4; 1; 3] initial in
  is_board (squares st) = true ∧
  in_range 2 ∧
  Js.get (squares st) 2 = Null ∧
  evaluate (squares st) = Ongoing ∧
  xIsNext st = true ∧
  evaluate (squares (handleSquareClick 2 st)) = Win X [0; 1; 2] ∧
  xIsNext (handleSquareClick 2 st) = false ∧
  xIsNext (handleSquareClick 2 st) ≠ xIsNext st.
Proof.
  intros st. split_and!; try reflexivity.
  - unfold in_range. lia.
  - by vm_compute.
Qed.

(** The same at a draw: the ninth move fills the board and flips the turn. *)
Example draw_move_flips_turn :
  let st := play [0; 1; 2; 3; 5; 4; 6; 8] initial in
  evaluate (squares st) = Ongoing ∧
  xIsNext st = true ∧
  evaluate (squares (handleSquareClick 7 st)) = Draw ∧
  xIsNext (handleSquareClick 7 st) = false.
Proof. by vm_compute. Qed.

(** C3, as the handler is written.  It has no test on the index.  A click
    with an index outside 0 to 8 is ignored when the key already holds a mark
    or the board has a winner; otherwise the mark of the turn is stored under
    that key, the turn passes to the other mark, and the squares 0 to 8 read
    as before. *)
Theorem out_of_range_click (st : state) (i : Z) :
  ¬ in_range i →
  ((∃ m, Js.get (squares st) i = Str m) ∨ (∃ m l, evaluate (squares st) = Win m l) →
   handleSquareClick i st = st) ∧
  ((∀ m, Js.get (squares st) i ≠ Str m) →
   (∀ m l, evaluate (squares st) ≠ Win m l) →
   Js.get (squares (handleSquareClick i st)) i = Str (turn st) ∧
   xIsNext (handleSquareClick i st) = negb (xIsNext st) ∧
   ∀ j, in_range j → Js.get (squares (handleSquareClick i st)) j = Js.get (squares st) j).
Proof.
  intros Hout. split.
  - intros H. apply handleSquareClick_ignored. destruct H as [[m ->]|H]; [by left|].
    right. by apply truthy_winner_evaluate.
  - intros Hfree Hnowin.
    rewrite handleSquareClick_accepted.
    + simpl. split_and!; [apply get_set_eq|done|].
      intros j Hj. rewrite get_set_ne by (intros ->; done).
      apply get_slice. by apply in_range_is_index.
    + destruct (Js.get (squares st) i) as [| |m] eqn:Hg; try done.
      by destruct (Hfree m).
    + apply not_true_iff_false. intros Ht.
      apply truthy_winner_evaluate in Ht as (m & l & Hw). by destruct (Hnowin m l).
Qed.

Lemma out_of_range_click_witness :
  ¬ in_range 9 ∧
  ((∃ m, Js.get (squares initial) 9 = Str m) ∨
   (∃ m l, evaluate (squares initial) = Win m l) →
   handleSquareClick 9 initial = initial) ∧
  ((∀ m, Js.get (squares initial) 9 ≠ Str m) →
   (∀ m l, evaluate (squares initial) ≠ Win m l) →
   Js.get (squares (handleSquareClick 9 initial)) 9 = Str (turn initial) ∧
   xIsNext (handleSquareClick 9 initial) = negb (xIsNext initial) ∧
   ∀ j, in_range j →
        Js.get (squares (handleSquareClick 9 initial)) j = Js.get (squares initial) j).
Proof.
  assert (¬ in_range 9) as Hout by (unfold in_range; lia).
  split; [done|]. apply (out_of_range_click initial 9 Hout).
Defined.

(** C3 as stated fails: a click with index 9 on the initial state is not
    rejected; the array grows to ten slots, slot 9 holds X and the turn has
    passed to O. *)
Lemma out_of_range_click_counterexample :
  ¬ in_range 9 ∧
  handleSquareClick 9 initial ≠ initial ∧
  Js.get (squares (handleSquareClick 9 initial)) 9 = Str X ∧
  length (Js.elems (squares (handleSquareClick 9 initial))) = 10%nat ∧
  xIsNext (handleSquareClick 9 initial) = false.
Proof.
  split_and!; try reflexivity.
  - unfold in_range. lia.
  - by vm_compute.
Qed.

(** A negative index is not rejected either: the mark becomes a property of
    the array, and the turn passes on. *)
Example negative_index_click :
  handleSquareClick (-1) initial ≠ initial ∧
  Js.get (squares (handleSquareClick (-1) initial)) (-1) = Str X ∧
  length (Js.elems (squares (handleSquareClick (-1) initial))) = 9%nat ∧
  xIsNext (handleSquareClick (-1) initial) = false.
Proof. split_and!; try reflexivity. by vm_compute. Qed.

(** What a write does to the length of the array: a key that addresses a
    slot makes it the larger of the old length and the key plus one; any
    other key (a negative one, or one from [2^32 - 1] on) leaves it. *)
Lemma length_set (a : Js.array) (i : Z) (v : value) :
  length (Js.elems (Js.set a i v))
  = if Js.is_index i
    then (length (Js.elems a) `max` S (Z.to_nat i))%nat
    else length (Js.elems a).
Proof.
  destruct (Js.is_index i) eqn:Hi.
  - destruct (decide (Z.to_nat i < length (Js.elems a))%nat) as [Hlt|Hge].
    + unfold Js.set. rewrite Hi, bool_decide_eq_true_2 by done. simpl.
      rewrite length_insert. lia.
    + rewrite length_set_outside by (done || lia). lia.
  - unfold Js.set. by rewrite Hi.
Qed.

(** So an accepted click past the board does not always lengthen the
    array: index 10 after index 12 fills a hole of an array of 13 slots, and
    index [2^32 - 1] is no slot at all. *)
Example out_of_range_click_lengths :
  length (Js.elems (squares (play [12] initial))) = 13%nat ∧
  length (Js.elems (squares (play [12; 10] initial))) = 13%nat ∧
  Js.get (squares (play [12; 10] initial)) 10 = Str O ∧
  Js.get (squares (play [12; 10] initial)) 11 = Undefined.
Proof. by vm_compute. Qed.

Example click_at_first_non_index :
  length (Js.elems (squares (handleSquareClick 4294967295 initial))) = 9%nat ∧
  Js.get (squares (handleSquareClick 4294967295 initial)) 4294967295 = Str X ∧
  xIsNext (handleSquareClick 4294967295 initial) = false.
Proof.
  rewrite handleSquareClick_accepted by reflexivity.
  cbn [squares xIsNext]. rewrite length_set, get_set_eq. by split_and!.
Qed.

(** C4.  In a state whose board is won or drawn, any sequence of clicks on
    the squares 0 to 8 leaves the state, hence the board and the verdict, as
    they are; [resetGame] leads to an ongoing game. *)
Theorem finished_game_locked (st : state) (clicks : list Z) :
  is_board (squares st) = true →
  evaluate (squares st) ≠ Ongoing →
  Forall in_range clicks →
  play clicks st = st ∧
  squares (play clicks st) = squares st ∧
  evaluate (squares (play clicks st)) ≠ Ongoing ∧
  evaluate (squares (resetGame st)) = Ongoing.
Proof.
  intros Hb He Hall.
  assert (play clicks st = st) as Hplay.
  { induction Hall as [|i clicks Hi _ IH]; [done|].
    unfold play. simpl. by rewrite (handleSquareClick_finished i st Hb He Hi). }
  rewrite Hplay. by split_and!.
Qed.

Lemma finished_game_locked_witness :
  let st := play [0; 4; 1; 3; 2] initial in
  is_board (squares st) = true ∧
  evaluate (squares st) ≠ Ongoing ∧
  Forall in_range [5; 8; 5] ∧
  play [5; 8; 5] st = st ∧
  squares (play [5; 8; 5] st) = squares st ∧
  evaluate (squares (play [5; 8; 5] st)) ≠ Ongoing ∧
  evaluate (squares (resetGame st)) = Ongoing.
Proof.
  intros st.
  assert (is_board (squares st) = true) as Hb by reflexivity.
  assert (evaluate (squares st) ≠ Ongoing) as He by (by vm_compute).
  assert (Forall in_range [5; 8; 5]) as Hall
    by (repeat constructor; unfold in_range; lia).
  do 3 (split; [done|]). apply (finished_game_locked st [5; 8; 5] Hb He Hall).
Defined.

(** C7.  On a board, clicking a square 0 to 8 that is not empty, any number
    of times, returns the very same state: the squares and the turn are as
    before (the handler returns early and raises nothing). *)
Theorem occupied_click_ignored (st : state) (i : Z) (n : nat) :
  is_board (squares st) = true →
  in_range i →
  Js.get (squares st) i ≠ Null →
  Nat.iter n (handleSquareClick i) st = st.
Proof.
  intros Hb Hi Hocc.
  assert (handleSquareClick i st = st) as Hstep.
  { apply handleSquareClick_ignored. left.
    destruct (board_get _ i Hb Hi) as [_ [Hn|[m ->]]]; done. }
  induction n as [|n IH]; simpl; [done|]. by rewrite IH.
Qed.

Lemma occupied_click_ignored_witness :
  let st := handleSquareClick 0 initial in
  is_board (squares st) = true ∧
  in_range 0 ∧
  Js.get (squares st) 0 ≠ Null ∧
  Nat.iter 3 (handleSquareClick 0) st = st.
Proof.
  intros st.
  assert (is_board (squares st) = true) as Hb by reflexivity.
  assert (in_range 0) as Hi by (unfold in_range; lia).
  assert (Js.get (squares st) 0 ≠ Null) as Hocc by (by vm_compute).
  do 3 (split; [done|]). apply (occupied_click_ignored st 0 3 Hb Hi Hocc).
Defined.

(** C8.  From every state [resetGame] yields the initial state: the nine
    squares read [null], X is to move, and the game is ongoing. *)
Theorem resetGame_initial (st : state) :
  resetGame st = initial ∧
  is_board (squares (resetGame st)) = true ∧
  Js.get (squares (resetGame st)) <$> [0; 1; 2; 3; 4; 5; 6; 7; 8] = replicate 9 Null ∧
  xIsNext (resetGame st) = true ∧
  evaluate (squares (resetGame st)) = Ongoing.
Proof. by split_and!. Qed.

(** C9.  A move the game accepts on a board changes square [i] only: the
    squares are still nine and still a board, square [i] holds the mark of
    the turn, and every other square 0 to 8 reads as before. *)
Theorem accepted_move_frame (st : state) (i : Z) :
  is_board (squares st) = true →
  in_range i →
  Js.get (squares st) i = Null →
  evaluate (squares st) = Ongoing →
  length (Js.elems (squares (handleSquareClick i st))) = 9%nat ∧
  is_board (squares (handleSquareClick i st)) = true ∧
  Js.get (squares (handleSquareClick i st)) i = Str (turn st) ∧
  ∀ j, in_range j → j ≠ i →
       Js.get (squares (handleSquareClick i st)) j = Js.get (squares st) j.
Proof.
  intros Hb Hi Hn He. rewrite handleSquareClick_move by done. simpl.
  pose proof (is_board_set (squares st) i (turn st) Hb Hi) as Hb'.
  split_and!.
  - by apply is_board_length.
  - done.
  - apply get_set_eq.
  - intros j Hj Hne. rewrite get_set_ne by done.
    apply get_slice. by apply in_range_is_index.
Qed.

Lemma accepted_move_frame_witness :
  let st := handleSquareClick 4 (handleSquareClick 0 initial) in
  is_board (squares st) = true ∧
  in_range 8 ∧
  Js.get (squares st) 8 = Null ∧
  evaluate (squares st) = Ongoing ∧
  length (Js.elems (squares (handleSquareClick 8 st))) = 9%nat ∧
  is_board (squares (handleSquareClick 8 st)) = true ∧
  Js.get (squares (handleSquareClick 8 st)) 8 = Str (turn st) ∧
  ∀ j, in_range j → j ≠ 8 →
       Js.get (squares (handleSquareClick 8 st)) j = Js.get (squares st) j.
Proof.
  intros st.
  assert (in_range 8) as Hi by (unfold in_range; lia).
  do 4 (split; [done|]).
  apply (accepted_move_frame st 8); [reflexivity | done | reflexivity | reflexivity].
Defined.

(** C10.  In every state reached from the initial one by clicks on the
    squares 0 to 8 and resets, the number of X minus the number of O is 0
    when X is to move and 1 when O is to move. *)
Theorem reachable_mark_balance (st : state) :
  reachable st →
  Z.of_nat (count_mark X (squares st)) - Z.of_nat (count_mark O (squares st))
  = if xIsNext st then 0 else 1.
Proof. intros Hr. by destruct (reachable_balanced st Hr). Qed.

Lemma reachable_mark_balance_witness :
  let st := handleSquareClick 1 (handleSquareClick 4 (handleSquareClick 0 initial)) in
  reachable st ∧
  Z.of_nat (count_mark X (squares st)) - Z.of_nat (count_mark O (squares st))
  = if xIsNext st then 0 else 1.
Proof.
  intros st.
  assert (reachable st) as Hr.
  { repeat (apply reachable_click; [unfold in_range; lia|]).
    apply reachable_initial. }
  split; [done|]. apply (reachable_mark_balance st Hr).
Defined.

(** The boards a play reaches are boards of nine squares. *)
Corollary reachable_is_board (st : state) :
  reachable st → is_board (squares st) = true.
Proof. intros Hr. by destruct (reachable_balanced st Hr). Qed.

(** ** The scenarios of the specification *)

Example scenario_row_win :
  evaluate (squares (play [0; 4; 1; 3; 2] initial)) = Win X [0; 1; 2] ∧
  status (play [0; 4; 1; 3; 2] initial) = "Winner: X".
Proof. by vm_compute. Qed.

Example scenario_draw :
  evaluate (squares (play [0; 1; 2; 3; 5; 4; 6; 8; 7] initial)) = Draw ∧
  status (play [0; 1; 2; 3; 5; 4; 6; 8; 7] initial) = "Draw".
Proof. by vm_compute. Qed.

Example scenario_same_square_twice :
  play [0; 0] initial = play [0] initial ∧
  status (play [0; 0] initial) = "Next: O".
Proof. by vm_compute. Qed.

Example scenario_reset_after_win :
  let won := play [0; 4; 1; 3; 2] initial in
  handleSquareClick 5 won = won ∧
  Js.get (squares (handleSquareClick 5 (resetGame won))) 5 = Str X.
Proof. by vm_compute. Qed.

(** * Further properties of the code *)

(** ** What [calculateWinner] returns *)

Section winner_result.
Implicit Types (sq : Js.array) (l : Z * Z * Z) (m : mark).

Lemma calculateWinner_from_shape lines sq :
  (calculateWinner_from lines sq = Outcome Null [] ∧
   ∀ l m, l ∈ lines → ¬ line_marked sq l m) ∨
  (∃ l m, l ∈ lines ∧ line_marked sq l m ∧
          calculateWinner_from lines sq = Outcome (Str m) (triple_list l)).
Proof.
  induction lines as [|[[a b] c] rest IH]; simpl.
  - left. split; [done|]. intros l m Hl. by apply elem_of_nil in Hl.
  - destruct (three_in_line sq a b c) eqn:Ht.
    + apply three_in_line_marked in Ht as [m Hm]. right.
      exists (a, b, c), m. split_and!; [by left|done|].
      by destruct Hm as [-> _].
    + destruct IH as [[Hres Hno]|(l & m & Hl & Hm & Hres)].
      * left. split; [done|]. intros l m Hl.
        apply elem_of_cons in Hl as [->|Hl]; [|by apply Hno].
        by apply (proj1 (three_in_line_unmarked sq a b c)).
      * right. exists l, m. split_and!; [by right|done|done].
Qed.

End winner_result.

(** X1.  [calculateWinner] returns one of two things, on every array: the
    pair of [null] and the empty array, and then no line carries one mark;
    or a mark together with the three indices of one of the eight lines,
    and then the three squares of that line hold that mark. *)
Theorem calculateWinner_sound (sq : Js.array) :
  (calculateWinner sq = Outcome Null [] ∧
   ∀ l m, l ∈ LINES → ¬ line_marked sq l m) ∨
  (∃ l m, l ∈ LINES ∧ line_marked sq l m ∧
          calculateWinner sq = Outcome (Str m) (triple_list l)).
Proof. apply calculateWinner_from_shape. Qed.

Lemma LINES_in_range (l : Z * Z * Z) :
  l ∈ LINES →
  in_range l.1.1 ∧ in_range l.1.2 ∧ in_range l.2.
Proof.
  unfold LINES. intros Hl.
  repeat (apply elem_of_cons in Hl as [->|Hl];
          [unfold in_range; simpl; lia|]).
  by apply elem_of_nil in Hl.
Qed.

Lemma calculateWinner_from_ext (lines : list (Z * Z * Z)) (sq sq' : Js.array) :
  (∀ l, l ∈ lines → in_range l.1.1 ∧ in_range l.1.2 ∧ in_range l.2) →
  (∀ i, in_range i → Js.get sq i = Js.get sq' i) →
  calculateWinner_from lines sq = calculateWinner_from lines sq'.
Proof.
  intros Hlines Hagree.
  induction lines as [|[[a b] c] rest IH]; simpl; [done|].
  destruct (Hlines (a, b, c)) as (Ha & Hb & Hc); [by left|]. simpl in *.
  unfold three_in_line.
  rewrite (Hagree a Ha), (Hagree b Hb), (Hagree c Hc).
  rewrite IH; [done|]. intros l Hl. apply Hlines. by right.
Qed.

(** X2.  [calculateWinner] reads the squares 0 to 8 and nothing else: two
    arrays that agree there (whatever their lengths, further slots and
    properties) get the same winner and the same line. *)
Theorem calculateWinner_reads_nine_squares (sq sq' : Js.array) :
  (∀ i, in_range i → Js.get sq i = Js.get sq' i) →
  calculateWinner sq = calculateWinner sq'.
Proof. apply calculateWinner_from_ext, LINES_in_range. Qed.

Lemma calculateWinner_reads_nine_squares_witness :
  let sq := squares (play [0; 4; 1; 3; 2] initial) in
  let sq' := Js.set (Js.set sq 11 (Str O)) (-2) (Str O) in
  (∀ i, in_range i → Js.get sq i = Js.get sq' i) ∧
  calculateWinner sq = calculateWinner sq'.
Proof.
  intros sq sq'.
  assert (∀ i, in_range i → Js.get sq i = Js.get sq' i) as Hagree.
  { intros i [??].
    assert (i = 0 ∨ i = 1 ∨ i = 2 ∨ i = 3 ∨ i = 4 ∨ i = 5 ∨ i = 6 ∨ i = 7 ∨ i = 8)
      as Hi by lia.
    repeat (destruct Hi as [->|Hi]; [reflexivity|]). by subst i. }
  split; [done|]. apply (calculateWinner_reads_nine_squares sq sq' Hagree).
Defined.

(** ** Clicks, whatever their index *)

Section any_click.
Implicit Types (st : state) (i j : Z) (m : mark).

(** What a click does to the key it is given and to the other slots. *)
Lemma handleSquareClick_get i j st :
  Js.is_index j = true →
  Js.get (squares (handleSquareClick i st)) j = Js.get (squares st) j ∨
  (i = j ∧ truthy (Js.get (squares st) j) = false ∧
   truthy (winner (calculateWinner (squares st))) = false ∧
   Js.get (squares (handleSquareClick i st)) j = Str (turn st)).
Proof.
  intros Hj. unfold handleSquareClick.
  destruct (truthy (Js.get (squares st) i)) eqn:Hg; simpl; [by left|].
  destruct (truthy (winner (calculateWinner (squares st)))) eqn:Hw; simpl;
    [by left|].
  destruct (decide (i = j)) as [->|Hne].
  - right. split_and!; try done. apply get_set_eq.
  - left. rewrite get_set_ne by done. by apply get_slice.
Qed.

Lemma handleSquareClick_keeps_mark i j st m :
  Js.is_index j = true → Js.get (squares st) j = Str m →
  Js.get (squares (handleSquareClick i st)) j = Str m.
Proof.
  intros Hj Hm.
  destruct (handleSquareClick_get i j st Hj) as [->|(_ & Hf & _)]; [done|].
  by rewrite Hm in Hf.
Qed.

End any_click.

(** X3.  A click with an index outside 0 to 8 never changes what
    [calculateWinner] returns: the winner and the highlighted line are as
    before, whether the click was ignored or stored a mark. *)
Theorem out_of_range_click_keeps_winner (st : state) (i : Z) :
  ¬ in_range i →
  calculateWinner (squares (handleSquareClick i st)) = calculateWinner (squares st).
Proof.
  intros Hout. apply calculateWinner_from_ext; [apply LINES_in_range|].
  intros j Hj.
  destruct (handleSquareClick_get i j st (in_range_is_index j Hj))
    as [->|(-> & _)]; done.
Qed.

Lemma out_of_range_click_keeps_winner_witness :
  let st := play [0; 4; 1; 3] initial in
  ¬ in_range 12 ∧
  calculateWinner (squares (handleSquareClick 12 st)) = calculateWinner (squares st).
Proof.
  intros st.
  assert (¬ in_range 12) as Hout by (unfold in_range; lia).
  split; [done|]. apply (out_of_range_click_keeps_winner st 12 Hout).
Defined.

(** X4.  A mark is never overwritten nor removed by clicks: a slot of the
    array that holds a mark holds the same mark after any sequence of
    clicks, whatever their indices. *)
Theorem marks_survive_clicks (clicks : list Z) (st : state) (j : Z) (m : mark) :
  Js.is_index j = true →
  Js.get (squares st) j = Str m →
  Js.get (squares (play clicks st)) j = Str m.
Proof.
  intros Hj. revert st.
  induction clicks as [|i clicks IH]; intros st Hm; [done|].
  unfold play. simpl. apply IH. by apply handleSquareClick_keeps_mark.
Qed.

Lemma marks_survive_clicks_witness :
  let st := handleSquareClick 4 initial in
  Js.is_index 4 = true ∧
  Js.get (squares st) 4 = Str X ∧
  Js.get (squares (play [4; 0; -3; 4; 20; 8] st)) 4 = Str X.
Proof.
  intros st. split; [reflexivity|]. split; [reflexivity|].
  apply (marks_survive_clicks [4; 0; -3; 4; 20; 8] st 4 X); reflexivity.
Defined.

(** A mark stored under a key that is not a slot is not that lasting: the
    next accepted click copies the slots only. *)
Example property_mark_lost :
  Js.get (squares (handleSquareClick (-1) initial)) (-1) = Str X ∧
  Js.get (squares (handleSquareClick 0 (handleSquareClick (-1) initial))) (-1)
  = Undefined.
Proof. by vm_compute. Qed.

(** X5.  Once [calculateWinner] reports a winner, every click is ignored,
    whatever its index and whatever the shape of the array: any sequence of
    clicks leaves the state as it is. *)
Theorem won_game_ignores_clicks (clicks : list Z) (st : state) (m : mark) :
  winner (calculateWinner (squares st)) = Str m →
  play clicks st = st.
Proof.
  intros Hw. induction clicks as [|i clicks IH]; [done|].
  unfold play. simpl. rewrite handleSquareClick_ignored; [done|].
  right. by rewrite Hw.
Qed.

Lemma won_game_ignores_clicks_witness :
  let st := play [0; 4; 1; 3; 2] initial in
  winner (calculateWinner (squares st)) = Str X ∧
  play [5; 9; -1; 5] st = st.
Proof.
  intros st. split; [reflexivity|].
  apply (won_game_ignores_clicks [5; 9; -1; 5] st X). reflexivity.
Defined.

(** A drawn game is not locked in that way: a click past the ninth square is
    accepted and passes the turn, and the status stays [Draw]. *)
Example drawn_game_accepts_click_past_the_board :
  let st := play [0; 1; 2; 3; 5; 4; 6; 8; 7] initial in
  status st = "Draw" ∧
  handleSquareClick 9 st ≠ st ∧
  xIsNext (handleSquareClick 9 st) = negb (xIsNext st) ∧
  status (handleSquareClick 9 st) = "Draw".
Proof. split_and!; try reflexivity. by vm_compute. Qed.

(** X6.  Clicking the same index twice in a row is the same as clicking it
    once, in every state and for every index: the first click either is
    ignored or fills the key, and the second one is then ignored. *)
Theorem handleSquareClick_idempotent (i : Z) (st : state) :
  handleSquareClick i (handleSquareClick i st) = handleSquareClick i st.
Proof.
  destruct (truthy (Js.get (squares st) i)) eqn:Hg.
  { by rewrite !(handleSquareClick_ignored i st (or_introl Hg)). }
  destruct (truthy (winner (calculateWinner (squares st)))) eqn:Hw.
  { by rewrite !(handleSquareClick_ignored i st (or_intror Hw)). }
  rewrite (handleSquareClick_accepted i st Hg Hw).
  apply handleSquareClick_ignored. left. simpl. by rewrite get_set_eq.
Qed.

(** ** Who wins *)

Section last_mover.
Implicit Types (st : state) (i : Z) (m : mark) (l : Z * Z * Z).

Lemma no_winner_no_line st l m :
  truthy (winner (calculateWinner (squares st))) = false →
  l ∈ LINES → ¬ line_marked (squares st) l m.
Proof.
  intros Hw Hl.
  destruct (calculateWinner_from_shape LINES (squares st))
    as [[_ Hno]|(l' & m' & _ & _ & Hres)]; [by apply Hno|].
  unfold calculateWinner in Hw. by rewrite Hres in Hw.
Qed.

(** A line that is marked after an accepted click carries the mark that
    was just placed. *)
Lemma accepted_click_line i st l m :
  truthy (Js.get (squares st) i) = false →
  truthy (winner (calculateWinner (squares st))) = false →
  l ∈ LINES → line_marked (squares (handleSquareClick i st)) l m →
  m = turn st.
Proof.
  intros Hg Hw Hl Hm.
  pose proof (no_winner_no_line st l m Hw Hl) as Hno.
  destruct (LINES_in_range l Hl) as (Ha & Hb & Hc).
  destruct l as [[a b] c]. simpl in *. destruct Hm as (Hma & Hmb & Hmc).
  destruct (handleSquareClick_get i a st (in_range_is_index a Ha))
    as [Ea|(_ & _ & _ & Ea)]; [|congruence].
  destruct (handleSquareClick_get i b st (in_range_is_index b Hb))
    as [Eb|(_ & _ & _ & Eb)]; [|congruence].
  destruct (handleSquareClick_get i c st (in_range_is_index c Hc))
    as [Ec|(_ & _ & _ & Ec)]; [|congruence].
  destruct Hno. split_and!; congruence.
Qed.

Lemma loser_to_move_initial : loser_to_move initial.
Proof.
  intros l m Hl Hm. unfold LINES in Hl.
  repeat (apply elem_of_cons in Hl as [->|Hl];
          [by destruct Hm as (Hm & _)|]).
  by apply elem_of_nil in Hl.
Qed.

Lemma loser_to_move_handle e st : loser_to_move st → loser_to_move (handle e st).
Proof.
  intros Hinv. destruct e as [i|]; simpl; [|apply loser_to_move_initial].
  destruct (truthy (Js.get (squares st) i)) eqn:Hg.
  { by rewrite (handleSquareClick_ignored i st (or_introl Hg)). }
  destruct (truthy (winner (calculateWinner (squares st)))) eqn:Hw.
  { by rewrite (handleSquareClick_ignored i st (or_intror Hw)). }
  intros l m Hl Hm.
  rewrite (accepted_click_line i st l m Hg Hw Hl Hm).
  rewrite (handleSquareClick_accepted i st Hg Hw).
  unfold turn. simpl. by destruct (xIsNext st).
Qed.

Lemma loser_to_move_run events st : loser_to_move st → loser_to_move (run events st).
Proof.
  revert st. induction events as [|e events IH]; intros st Hinv; [done|].
  unfold run. simpl. apply IH. by apply loser_to_move_handle.
Qed.

End last_mover.

(** X7.  After any sequence of clicks (of any index) and resets from the
    initial state, no line carries the mark of the player who is to move;
    so a winner that [calculateWinner] reports is the player who moved
    last, and the two marks never both have a line. *)
Theorem winner_moved_last (events : list event) :
  let st := run events initial in
  (∀ l, l ∈ LINES → ¬ line_marked (squares st) l (turn st)) ∧
  (∀ m, winner (calculateWinner (squares st)) = Str m → m = other (turn st)).
Proof.
  intros st.
  pose proof (loser_to_move_run events initial loser_to_move_initial) as Hinv.
  fold st in Hinv. split.
  - intros l Hl Hm. apply Hinv in Hm; [|done]. by destruct (turn st).
  - intros m Hw.
    destruct (calculateWinner_from_shape LINES (squares st))
      as [[Hres _]|(l & m' & Hl & Hm & Hres)];
      unfold calculateWinner in Hw; rewrite Hres in Hw; [done|].
    injection Hw as <-. by apply (Hinv l).
Qed.

(** ** The rendered board and the states it leads to *)

Lemma rendered_squares_onClick (st : state) :
  onClick <$> rendered_squares st = [0; 1; 2; 3; 4; 5; 6; 7; 8].
Proof. reflexivity. Qed.

Lemma rendered_squares_in_range (st : state) (b : button) :
  b ∈ rendered_squares st → in_range (onClick b).
Proof.
  intros Hb. apply (list_elem_of_fmap_2 onClick) in Hb.
  rewrite rendered_squares_onClick in Hb.
  repeat (apply elem_of_cons in Hb as [->|Hb]; [unfold in_range; lia|]).
  by apply elem_of_nil in Hb.
Qed.

(** X8.  The board renders nine squares whose click handlers pass the
    indices 0 to 8, in this order, each showing [squares[idx]]; so whatever
    the user clicks, the state stays among those reached by clicks with
    indices 0 to 8 and resets, and its array is a board of nine squares. *)
Theorem ui_reachable_reachable (st : state) :
  ui_reachable st →
  reachable st ∧ is_board (squares st) = true ∧
  onClick <$> rendered_squares st = [0; 1; 2; 3; 4; 5; 6; 7; 8] ∧
  children <$> rendered_squares st
  = Js.get (squares st) <$> [0; 1; 2; 3; 4; 5; 6; 7; 8].
Proof.
  intros Hui.
  assert (reachable st) as Hr.
  { induction Hui as [|b st Hb _ IH|st _ IH].
    - apply reachable_initial.
    - apply reachable_click; [|done]. by apply (rendered_squares_in_range st).
    - by apply reachable_reset. }
  split_and!; [done| |reflexivity..].
  by destruct (reachable_balanced st Hr).
Qed.

Lemma ui_reachable_reachable_witness :
  let b := Square Null 4 false in
  let st := handleSquareClick (onClick b) initial in
  ui_reachable st ∧
  reachable st ∧ is_board (squares st) = true ∧
  onClick <$> rendered_squares st = [0; 1; 2; 3; 4; 5; 6; 7; 8] ∧
  children <$> rendered_squares st
  = Js.get (squares st) <$> [0; 1; 2; 3; 4; 5; 6; 7; 8].
Proof.
  intros b st.
  assert (ui_reachable st) as Hui.
  { apply ui_click; [|apply ui_initial].
    apply list_elem_of_lookup. by exists 4%nat. }
  split; [done|]. apply (ui_reachable_reachable st Hui).
Defined.

(** X9.  The states reached by clicks with indices 0 to 8 and resets keep
    an array of exactly nine slots without holes, each [null] or a mark: the
    array never grows and no square reads [undefined]. *)
Theorem reachable_nine_cells (st : state) :
  reachable st →
  length (Js.elems (squares st)) = 9%nat ∧
  is_board (squares st) = true ∧
  ∀ i, in_range i → Js.get (squares st) i ≠ Undefined.
Proof.
  intros Hr. destruct (reachable_balanced st Hr) as [Hb _].
  split_and!; [by apply is_board_length|done|].
  intros i Hi. destruct (board_get _ i Hb Hi) as [_ [->|[m ->]]]; done.
Qed.

Lemma reachable_nine_cells_witness :
  let st := resetGame (handleSquareClick 3 (handleSquareClick 3 initial)) in
  reachable st ∧
  length (Js.elems (squares st)) = 9%nat ∧
  is_board (squares st) = true ∧
  ∀ i, in_range i → Js.get (squares st) i ≠ Undefined.
Proof.
  intros st.
  assert (reachable st) as Hr.
  { apply reachable_reset.
    repeat (apply reachable_click; [unfold in_range; lia|]).
    apply reachable_initial. }
  split; [done|]. apply (reachable_nine_cells st Hr).
Defined.

(** X10.  The squares rendered with the highlight class are exactly the
    squares of the line [calculateWinner] returns, in board order (none
    when there is no winner), and each of them shows the winner's mark. *)
Theorem highlight_is_winning_line (st : state) :
  onClick <$> filter (λ b, highlighted b = true) (rendered_squares st)
  = line (calculateWinner (squares st)) ∧
  Forall (λ b, children b = winner (calculateWinner (squares st)))
         (filter (λ b, highlighted b = true) (rendered_squares st)).
Proof.
  unfold rendered_squares, Board, renderSquare.
  destruct (calculateWinner_from_shape LINES (squares st))
    as [[Hres _]|(l & m & Hl & Hm & Hres)];
    fold (calculateWinner (squares st)) in Hres; rewrite Hres.
  - generalize (Js.get (squares st)). intros g. by vm_compute.
  - unfold LINES in Hl.
    repeat (apply elem_of_cons in Hl as [->|Hl];
            [revert Hm; unfold line_marked;
             generalize (Js.get (squares st)); intros g (Ha & Hb & Hc);
             split; [by vm_compute|];
             vm_compute; repeat constructor; simpl; congruence|]).
    by apply elem_of_nil in Hl.
Qed.

(** ** The status line *)

Lemma forallb_false_lookup {A : Type} (f : A → bool) (l : list A) :
  forallb f l = false → ∃ n x, l !! n = Some x ∧ f x = false.
Proof.
  induction l as [|y l IH]; simpl; [done|].
  destruct (f y) eqn:Hy; simpl.
  - intros H. destruct (IH H) as (n & x & Hn & Hx). by exists (S n), x.
  - intros _. by exists 0%nat, y.
Qed.

(** On a board, a failing [every] test of [isDraw] points at an empty
    square. *)
Lemma board_not_full (sq : Js.array) :
  is_board sq = true →
  Js.every (λ s, negb (strict_eq s Null)) sq = false →
  ∃ i, in_range i ∧ Js.get sq i = Null.
Proof.
  intros Hb He. apply forallb_false_lookup in He as (n & s & Hn & Hs).
  pose proof (lookup_lt_Some _ _ _ Hn) as Hlt.
  rewrite (is_board_length sq Hb) in Hlt.
  assert (in_range (Z.of_nat n)) as Hr by (unfold in_range; lia).
  exists (Z.of_nat n). split; [done|].
  destruct (board_get sq _ Hb Hr) as [Hg _].
  rewrite Nat2Z.id, Hn in Hg. injection Hg as ->.
  unfold strict_eq in Hs. apply negb_false_iff, bool_decide_eq_true_1 in Hs.
  done.
Qed.

(** X11.  When the status of a board reads [Next: m], some square 0 to 8
    is empty, and a click on any empty square is accepted and places [m]
    there. *)
Theorem status_next_names_the_mover (st : state) (m : mark) :
  is_board (squares st) = true →
  status st = "Next: " +:+ mark_string m →
  (∃ i, in_range i ∧ Js.get (squares st) i = Null) ∧
  ∀ i, Js.get (squares st) i = Null →
       Js.get (squares (handleSquareClick i st)) i = Str m ∧
       xIsNext (handleSquareClick i st) = negb (xIsNext st).
Proof.
  intros Hb Hs. unfold status, isDraw in Hs.
  assert (truthy (winner (calculateWinner (squares st))) = false
          ∧ Js.every (λ s, negb (strict_eq s Null)) (squares st) = false
          ∧ turn st = m) as (Hw & He & Ht).
  { unfold turn.
    destruct (winner (calculateWinner (squares st))) as [| |m'];
      simpl in Hs;
      [| |by destruct m', m];
      (destruct (Js.every _ (squares st)); [by destruct m|];
       split_and!; [done..|];
       by destruct (xIsNext st), m). }
  split; [by apply board_not_full|].
  intros i Hn. rewrite handleSquareClick_accepted; [|by rewrite Hn|done].
  simpl. by rewrite get_set_eq, Ht.
Qed.

Lemma status_next_names_the_mover_witness :
  let st := handleSquareClick 4 initial in
  is_board (squares st) = true ∧
  status st = "Next: " +:+ mark_string O ∧
  (∃ i, in_range i ∧ Js.get (squares st) i = Null) ∧
  ∀ i, Js.get (squares st) i = Null →
       Js.get (squares (handleSquareClick i st)) i = Str O ∧
       xIsNext (handleSquareClick i st) = negb (xIsNext st).
Proof.
  intros st. split; [reflexivity|]. split; [reflexivity|].
  apply (status_next_names_the_mover st O); reflexivity.
Defined.

(** X12.  The status text and the class of the status element always go
    together, in every state: a winner text with [status-win], [Draw] with
    [status-draw], and a next-player text with no further class. *)
Theorem status_text_and_class (st : state) :
  (status st, statusClass st) ∈
    [ ("Winner: X", "status status-win");
      ("Winner: O", "status status-win");
      ("Draw", "status status-draw");
      ("Next: X", "status ");
      ("Next: O", "status ") ].
Proof.
  unfold status, statusClass.
  destruct (winner (calculateWinner (squares st))) as [| |[|]]; simpl;
    try destruct (isDraw (squares st)); try destruct (xIsNext st); simpl;
    set_solver.
Qed.

(** ** How long a game lasts *)

Section game_length.
Implicit Types (l : list (option value)) (st : state) (i : Z).

Lemma count_marks_le l :
  (length (filter (λ s, s = Some (Str X)) l)
   + length (filter (λ s, s = Some (Str O)) l) ≤ length l)%nat.
Proof.
  induction l as [|s l IH]; [done|].
  rewrite !count_filter_cons. simpl. unfold holds.
  repeat case_decide; simplify_eq; lia.
Qed.

Lemma count_marks_full l :
  Forall (λ s, ∃ m, s = Some (Str m)) l →
  (length (filter (λ s, s = Some (Str X)) l)
   + length (filter (λ s, s = Some (Str O)) l) = length l)%nat.
Proof.
  induction 1 as [|s l [m ->] _ IH]; [done|].
  rewrite !count_filter_cons. simpl. unfold holds.
  destruct m; repeat case_decide; simplify_eq; lia.
Qed.

(** A click on a board either changes nothing or adds exactly one mark. *)
Lemma marks_click i st :
  is_board (squares st) = true → in_range i →
  marks (handleSquareClick i st)
  = (marks st + if decide (handleSquareClick i st = st) then 0 else 1)%nat.
Proof.
  intros Hb Hi.
  destruct (truthy (Js.get (squares st) i)) eqn:Hg.
  { rewrite (handleSquareClick_ignored i st (or_introl Hg)).
    rewrite decide_True by done. lia. }
  destruct (truthy (winner (calculateWinner (squares st)))) eqn:Hw.
  { rewrite (handleSquareClick_ignored i st (or_intror Hw)).
    rewrite decide_True by done. lia. }
  rewrite (handleSquareClick_accepted i st Hg Hw).
  rewrite decide_False.
  2:{ intros Heq. apply (f_equal xIsNext) in Heq. simpl in Heq.
      by destruct (xIsNext st). }
  destruct (board_get _ i Hb Hi) as [Hs [Hn|[m Hm]]]; [|by rewrite Hm in Hg].
  rewrite Hn in Hs. pose proof (is_board_length _ Hb) as Hlen.
  unfold marks, count_mark, Js.set. simpl. rewrite (in_range_is_index i Hi).
  rewrite bool_decide_eq_true_2 by (rewrite Hlen; destruct Hi; lia). simpl.
  pose proof (count_filter_insert X _ _ _ (Some (Str (turn st))) Hs) as HX.
  pose proof (count_filter_insert O _ _ _ (Some (Str (turn st))) Hs) as HO.
  unfold holds, turn in *.
  destruct (xIsNext st); repeat case_decide; simplify_eq; lia.
Qed.

Lemma is_board_click i st :
  is_board (squares st) = true → in_range i →
  is_board (squares (handleSquareClick i st)) = true.
Proof.
  intros Hb Hi. unfold handleSquareClick.
  destruct (_ || _); [done|]. simpl. by apply is_board_set.
Qed.

Lemma is_board_play (clicks : list Z) st :
  is_board (squares st) = true → Forall in_range clicks →
  is_board (squares (play clicks st)) = true.
Proof.
  intros Hb Hall. revert st Hb.
  induction Hall as [|i clicks Hi _ IH]; intros st Hb; [done|].
  unfold play. simpl. apply IH. by apply is_board_click.
Qed.

End game_length.

(** X13.  Starting on a board, the clicks of a sequence (indices 0 to 8)
    that change the state are as many as the marks the sequence adds, and
    the board never holds more than nine marks: from the initial state at
    most nine clicks are accepted, however many are made. *)
Theorem accepted_clicks_bounded (clicks : list Z) (st : state) :
  is_board (squares st) = true →
  Forall in_range clicks →
  (marks (play clicks st) = marks st + accepted_clicks clicks st)%nat ∧
  (marks st + accepted_clicks clicks st ≤ 9)%nat.
Proof.
  intros Hb Hall.
  assert (marks (play clicks st) = marks st + accepted_clicks clicks st)%nat
    as Hcount.
  { revert st Hb. induction Hall as [|i clicks Hi _ IH]; intros st Hb.
    - unfold play. simpl. lia.
    - unfold play. simpl. fold (play clicks (handleSquareClick i st)).
      rewrite IH by (by apply is_board_click).
      rewrite (marks_click i st Hb Hi). lia. }
  split; [done|]. rewrite <- Hcount.
  pose proof (is_board_play clicks st Hb Hall) as Hb'.
  unfold marks, count_mark. rewrite <- (is_board_length _ Hb').
  apply count_marks_le.
Qed.

Lemma accepted_clicks_bounded_witness :
  let clicks := [0; 0; 4; 1; 4; 3; 2; 5; 6; 7; 8] in
  is_board (squares initial) = true ∧
  Forall in_range clicks ∧
  (marks (play clicks initial) = marks initial + accepted_clicks clicks initial)%nat ∧
  (marks initial + accepted_clicks clicks initial ≤ 9)%nat.
Proof.
  intros clicks.
  assert (Forall in_range clicks) as Hall
    by (repeat constructor; unfold in_range; lia).
  split; [reflexivity|]. split; [done|].
  apply (accepted_clicks_bounded clicks initial); [reflexivity|done].
Defined.

(** X14.  In a state reached by clicks with indices 0 to 8 and resets,
    X holds at most five squares and O at most four; and when [isDraw] is
    true the board holds exactly five X and four O, and the turn has passed
    to O. *)
Theorem reachable_draw_is_five_four (st : state) :
  reachable st →
  (count_mark X (squares st) ≤ 5)%nat ∧
  (count_mark O (squares st) ≤ 4)%nat ∧
  (isDraw (squares st) = true →
   count_mark X (squares st) = 5%nat ∧ count_mark O (squares st) = 4%nat ∧
   xIsNext st = false).
Proof.
  intros Hr. destruct (reachable_balanced st Hr) as [Hb Hbal].
  pose proof (is_board_length _ Hb) as Hlen.
  pose proof (count_marks_le (Js.elems (squares st))) as Hle.
  fold (count_mark X (squares st)) in Hle.
  fold (count_mark O (squares st)) in Hle.
  split_and!.
  - destruct (xIsNext st); lia.
  - destruct (xIsNext st); lia.
  - intros Hd. unfold isDraw in Hd. apply andb_prop in Hd as [_ He].
    pose proof (proj1 (board_every_full _ Hb) He) as Hfull.
    assert (Forall (λ s, ∃ m, s = Some (Str m)) (Js.elems (squares st))) as Hm.
    { apply Forall_lookup. intros n s Hn.
      pose proof (lookup_lt_Some _ _ _ Hn) as Hlt. rewrite Hlen in Hlt.
      assert (in_range (Z.of_nat n)) as Hi by (unfold in_range; lia).
      destruct (board_get _ _ Hb Hi) as [Hs [Hnull|[m Hmk]]].
      - by destruct (Hfull _ Hi).
      - rewrite Nat2Z.id, Hn, Hmk in Hs. injection Hs as ->. by exists m. }
    apply count_marks_full in Hm.
    fold (count_mark X (squares st)) in Hm.
    fold (count_mark O (squares st)) in Hm.
    destruct (xIsNext st); split_and!; lia || (exfalso; lia).
Qed.

Lemma reachable_play (clicks : list Z) (st : state) :
  Forall in_range clicks → reachable st → reachable (play clicks st).
Proof.
  intros Hall. revert st.
  induction Hall as [|i clicks Hi _ IH]; intros st Hr; [done|].
  unfold play. simpl. apply IH. by apply reachable_click.
Qed.

(** The drawn game of nine moves. *)
Lemma reachable_draw_is_five_four_witness :
  let st := play [0; 1; 2; 3; 5; 4; 6; 8; 7] initial in
  reachable st ∧
  (count_mark X (squares st) ≤ 5)%nat ∧
  (count_mark O (squares st) ≤ 4)%nat ∧
  (isDraw (squares st) = true →
   count_mark X (squares st) = 5%nat ∧ count_mark O (squares st) = 4%nat ∧
   xIsNext st = false).
Proof.
  intros st.
  assert (reachable st) as Hr.
  { apply reachable_play; [|apply reachable_initial].
    repeat constructor; unfold in_range; lia. }
  split; [done|]. apply (reachable_draw_is_five_four st Hr).
Defined.

Example drawn_game_is_drawn :
  isDraw (squares (play [0; 1; 2; 3; 5; 4; 6; 8; 7] initial)) = true.
Proof. reflexivity. Qed.

(** Eleven clicks, five of them accepted: X wins with the fifth mark. *)
Example accepted_clicks_of_a_won_game :
  accepted_clicks [0; 0; 4; 1; 4; 3; 2; 5; 6; 7; 8] initial = 5%nat ∧
  marks (play [0; 0; 4; 1; 4; 3; 2; 5; 6; 7; 8] initial) = 5%nat.
Proof. by vm_compute. Qed.
